(** * The integer arithmetic analyzer of [python/tvm/arith.py]

    The Python module is a binding layer: every analysis is carried out by
    closures obtained from the native analyzer ([_CreateAnalyzer]).  The
    first part of this file embeds the Python layer as it is written, over
    an arbitrary native analyzer.  The second part models the native engine
    from the specification and instantiates the binding layer with it. *)

From Stdlib Require Import ZArith Lia Bool List String.
From stdpp Require Import gmap.
Import ListNotations.
Local Open Scope string_scope.
Local Open Scope Z_scope.

(** ** Values exchanged with the native side *)

(** Identity token of a [tvm.Var]. *)
Definition var : Type := positive.

(** Modelled from the spec: the host IR ([tvm.Expr]) is not part of the
    Python module; section 6 fixes what the analyzer sees of it, literal
    constants, variables, add/sub/mul/div/mod, comparisons, and node kinds
    it does not know. *)
Inductive Expr : Type :=
| IntImm (value : Z)
| Var (v : var)
| Add (a b : Expr)
| Sub (a b : Expr)
| Mul (a b : Expr)
| Div (a b : Expr)
| Mod (a b : Expr)
| EQ (a b : Expr)
| NE (a b : Expr)
| LT (a b : Expr)
| LE (a b : Expr)
| GT (a b : Expr)
| GE (a b : Expr)
| Opaque (kind : string).

(** [class ModularSet]: range of [coeff * x + base] for [x] in Z. *)
Record ModularSet : Type := mkModularSet { coeff : Z; base : Z }.

(** [class ConstIntBound]. *)
Record ConstIntBound : Type := mkConstIntBound { min_value : Z; max_value : Z }.

(** [POS_INF = (1 << 63) - 1] and [NEG_INF = -POS_INF]; Python integers do
    not wrap, so both are plain integers. *)
Definition POS_INF : Z := Z.shiftl 1 63 - 1.
Definition NEG_INF : Z := - POS_INF.

(** The objects a caller can hand to [Analyzer.update] as [info]: the node
    classes of the module, expressions, and any other Python object, known
    by the name of its type. *)
Inductive Node : Type :=
| NodeConstIntBound (b : ConstIntBound)
| NodeModularSet (m : ModularSet)
| NodeIntervalSet (lo hi : Expr)
| NodeStrideSet
| NodeExpr (e : Expr)
| PyOther (type_name : string).

(** [isinstance(info, ConstIntBound)]; no class of the module derives from
    [ConstIntBound]. *)
Definition isinstance_ConstIntBound (info : Node) : option ConstIntBound :=
  match info with
  | NodeConstIntBound b => Some b
  | _ => None
  end.

(** The name of the class of an expression node in [tvm.expr]; a node of
    a kind the analyzer does not know carries the name of its class. *)
Definition expr_class (e : Expr) : string :=
  match e with
  | IntImm _ => "IntImm"
  | Var _ => "Var"
  | Add _ _ => "Add"
  | Sub _ _ => "Sub"
  | Mul _ _ => "Mul"
  | Div _ _ => "Div"
  | Mod _ _ => "Mod"
  | EQ _ _ => "EQ"
  | NE _ _ => "NE"
  | LT _ _ => "LT"
  | LE _ _ => "LE"
  | GT _ _ => "GT"
  | GE _ _ => "GE"
  | Opaque kind => kind
  end.

(** [type(info)], as [format] prints it: the concrete class of the object. *)
Definition type_repr (info : Node) : string :=
  match info with
  | NodeConstIntBound _ => "<class 'tvm.arith.ConstIntBound'>"
  | NodeModularSet _ => "<class 'tvm.arith.ModularSet'>"
  | NodeIntervalSet _ _ => "<class 'tvm.arith.IntervalSet'>"
  | NodeStrideSet => "<class 'tvm.arith.StrideSet'>"
  | NodeExpr e =>
      String.append "<class 'tvm.expr." (String.append (expr_class e) "'>")
  | PyOther t => String.append "<class '" (String.append t "'>")
  end.

(** ** Exceptions, outcomes and the world *)

Inductive Exn : Type :=
| TypeError (msg : string)
| TVMError (msg : string)
| PyException (name msg : string).

Inductive Outcome (A : Type) : Type :=
| Return (a : A)
| Raise (e : Exn).
Arguments Return {A} a.
Arguments Raise {A} e.

Definition raised {A} (o : Outcome A) : Prop :=
  match o with Raise _ => True | Return _ => False end.

(** The calls that cross into the native analyzer, in the order made. *)
Inductive Call : Type :=
| CallConstIntBound (e : Expr)
| CallConstIntBoundUpdate (v : var) (b : ConstIntBound) (override : bool)
| CallBind (v : var) (e : Expr)
| CallModularSet (e : Expr)
| CallRewriteSimplify (e : Expr)
| CallCanonicalSimplify (e : Expr)
| CallEnterConstraintContext (c : Expr)
| CallFExit.

(** How many times a release action was called. *)
Definition is_fexit (c : Call) : bool :=
  match c with CallFExit => true | _ => false end.

Definition fexit_count (log : list Call) : nat :=
  length (List.filter is_fexit log).

(** The state of the native analyzer, hidden behind the closures, and the
    log of the calls made into it. *)
Record World (N : Type) : Type := mkWorld { native : N; calls : list Call }.
Arguments mkWorld {N} native calls.
Arguments native {N} w.
Arguments calls {N} w.

(** A native closure: runs on the analyzer state, returns or raises. *)
Definition PackedFunc (N A : Type) : Type := N -> Outcome A * N.

(** A Python computation: an outcome and the world it leaves; an exception
    does not roll the world back. *)
Definition M (N A : Type) : Type := World N -> Outcome A * World N.

Definition ret {N A} (a : A) : M N A := fun w => (Return a, w).

Definition raise {N A} (e : Exn) : M N A := fun w => (Raise e, w).

Definition bind_M {N A B} (m : M N A) (k : A -> M N B) : M N B :=
  fun w =>
    match m w with
    | (Return a, w1) => k a w1
    | (Raise e, w1) => (Raise e, w1)
    end.

Notation "x <- m ;; k" := (bind_M m (fun x => k))
  (at level 100, m at next level, right associativity).

(** Calling a native closure from Python. *)
Definition invoke {N A} (c : Call) (f : PackedFunc N A) : M N A :=
  fun w =>
    let (o, n1) := f (native w) in
    (o, mkWorld n1 (calls w ++ [c])).

(** What [_CreateAnalyzer()] hands out by name. *)
Class NativeModule (N : Type) : Type := {
  mod_const_int_bound : Expr -> PackedFunc N ConstIntBound;
  mod_const_int_bound_update : var -> ConstIntBound -> bool -> PackedFunc N unit;
  mod_bind : var -> Expr -> PackedFunc N unit;
  mod_modular_set : Expr -> PackedFunc N ModularSet;
  mod_rewrite_simplify : Expr -> PackedFunc N Expr;
  mod_canonical_simplify : Expr -> PackedFunc N Expr;
  mod_enter_constraint_context : Expr -> PackedFunc N (PackedFunc N unit)
}.

(** ** [class ConstraintScope] *)

Record ConstraintScope (N : Type) : Type := mkConstraintScope {
  _fenter : M N (PackedFunc N unit);
  _fexit : option (PackedFunc N unit)
}.
Arguments mkConstraintScope {N} _ _.
Arguments _fenter {N} c.
Arguments _fexit {N} c.

Inductive PyVal : Type := PyNone | PyBool (b : bool).

Definition truthy (v : PyVal) : bool :=
  match v with PyNone => false | PyBool b => b end.

Section Binding.
Context {N : Type} `{NativeModule N}.

Definition ConstraintScope__init__ (fenter : M N (PackedFunc N unit))
  : ConstraintScope N :=
  mkConstraintScope fenter None.

(** [self._fexit = self._fenter()]: the method returns the outcome, the
    object as it has become, and the world. *)
Definition __enter__ (self : ConstraintScope N)
  : World N -> Outcome PyVal * ConstraintScope N * World N :=
  fun w =>
    match _fenter self w with
    | (Return r, w1) => (Return PyNone, mkConstraintScope (_fenter self) (Some r), w1)
    | (Raise e, w1) => (Raise e, self, w1)
    end.

(** [self._fexit()]; the exception triple is not looked at and the
    method returns [None]. *)
Definition __exit__ (self : ConstraintScope N) (exc : option Exn)
  : World N -> Outcome PyVal * ConstraintScope N * World N :=
  fun w =>
    match _fexit self with
    | Some r =>
        match invoke CallFExit r w with
        | (Return _, w1) => (Return PyNone, self, w1)
        | (Raise e, w1) => (Raise e, self, w1)
        end
    | None => (Raise (TypeError "'NoneType' object is not callable"), self, w)
    end.

(** The [with mgr: block] statement of the language: enter; run the
    block; call [__exit__] with the exception, if any; an exception of
    the block is raised again unless [__exit__] returned a true value.
    The value is the block's, [None] when its exception was swallowed. *)
Definition with_stmt {A} (mgr : ConstraintScope N) (block : M N A)
  : M N (option A) :=
  fun w =>
    match __enter__ mgr w with
    | (Raise e, _, w1) => (Raise e, w1)
    | (Return _, mgr1, w1) =>
        match block w1 with
        | (Return a, w2) =>
            match __exit__ mgr1 None w2 with
            | (Return _, _, w3) => (Return (Some a), w3)
            | (Raise e', _, w3) => (Raise e', w3)
            end
        | (Raise e, w2) =>
            match __exit__ mgr1 (Some e) w2 with
            | (Return v, _, w3) =>
                if truthy v then (Return None, w3) else (Raise e, w3)
            | (Raise e', _, w3) => (Raise e', w3)
            end
        end
    end.

(** ** [class Analyzer] *)

Record Analyzer : Type := mkAnalyzer {
  _const_int_bound : Expr -> PackedFunc N ConstIntBound;
  _const_int_bound_update : var -> ConstIntBound -> bool -> PackedFunc N unit;
  _bind : var -> Expr -> PackedFunc N unit;
  _modular_set : Expr -> PackedFunc N ModularSet;
  _rewrite_simplify : Expr -> PackedFunc N Expr;
  _canonical_simplify : Expr -> PackedFunc N Expr;
  _enter_constraint_context : Expr -> PackedFunc N (PackedFunc N unit)
}.

Definition Analyzer__init__ : Analyzer :=
  {| _const_int_bound := mod_const_int_bound;
     _const_int_bound_update := mod_const_int_bound_update;
     _bind := mod_bind;
     _modular_set := mod_modular_set;
     _rewrite_simplify := mod_rewrite_simplify;
     _canonical_simplify := mod_canonical_simplify;
     _enter_constraint_context := mod_enter_constraint_context |}.

Definition const_int_bound (self : Analyzer) (expr : Expr) : M N ConstIntBound :=
  invoke (CallConstIntBound expr) (_const_int_bound self expr).

Definition modular_set (self : Analyzer) (expr : Expr) : M N ModularSet :=
  invoke (CallModularSet expr) (_modular_set self expr).

Definition rewrite_simplify (self : Analyzer) (expr : Expr) : M N Expr :=
  invoke (CallRewriteSimplify expr) (_rewrite_simplify self expr).

Definition canonical_simplify (self : Analyzer) (expr : Expr) : M N Expr :=
  invoke (CallCanonicalSimplify expr) (_canonical_simplify self expr).

Definition bind (self : Analyzer) (v : var) (expr : Expr) : M N unit :=
  invoke (CallBind v expr) (_bind self v expr).

Definition constraint_scope (self : Analyzer) (constraint : Expr)
  : ConstraintScope N :=
  let _fenter :=
    invoke (CallEnterConstraintContext constraint)
           (_enter_constraint_context self constraint) in
  ConstraintScope__init__ _fenter.

Definition update (self : Analyzer) (v : var) (info : Node) (override : bool)
  : M N unit :=
  match isinstance_ConstIntBound info with
  | Some b =>
      _ <- invoke (CallConstIntBoundUpdate v b override)
                  (_const_int_bound_update self v b override) ;;
      ret tt
  | None =>
      raise (TypeError (String.append "Do not know how to handle type "
                                      (type_repr info)))
  end.

End Binding.

(** ** The native engine *)

Module Engine.

(** Modelled from the spec: the native analyzer state is not part of the
    Python module.  Sections 3 and 9 describe it as a context object that
    owns two stores indexed by variable (bound facts, modular facts) and
    an append-only constraint log; a scope appends its constraint and its
    release truncates the log back to the recorded length. *)
Record State : Type := mkState {
  bound_map : gmap var ConstIntBound;
  modular_map : gmap var ModularSet;
  constraint_log : list Expr
}.

(** A fresh analyzer knows nothing. *)
Definition fresh : State := mkState ∅ ∅ [].

(** *** Bound lattice *)

(** Modelled from the spec: the invariant of [ConstIntBound] (section 3). *)
Definition valid (b : ConstIntBound) : Prop := min_value b <= max_value b.

(** Modelled from the spec: the full range, the answer when nothing is
    known (section 7). *)
Definition everything : ConstIntBound := mkConstIntBound NEG_INF POS_INF.

Definition is_pos_inf (z : Z) : bool := POS_INF <=? z.
Definition is_neg_inf (z : Z) : bool := z <=? NEG_INF.
Definition is_inf (z : Z) : bool := is_pos_inf z || is_neg_inf z.

(** Modelled from the spec: results saturate to the sentinels instead of
    wrapping (section 4.1). *)
Definition sat (z : Z) : Z := Z.max NEG_INF (Z.min POS_INF z).

(** The sign of a product or quotient with an unbounded operand. *)
Definition inf_of_sign (x y : Z) : Z :=
  if (x =? 0) || (y =? 0) then 0
  else if Bool.eqb (0 <? x) (0 <? y) then POS_INF else NEG_INF.

Definition inf_add (x y : Z) : Z :=
  if is_pos_inf x then POS_INF
  else if is_neg_inf x then NEG_INF
  else if is_pos_inf y then POS_INF
  else if is_neg_inf y then NEG_INF
  else sat (x + y).

Definition inf_mul (x y : Z) : Z :=
  if is_inf x || is_inf y then inf_of_sign x y else sat (x * y).

Definition inf_div (x y : Z) : Z :=
  if is_inf x then inf_of_sign x y
  else if is_inf y then 0
  else sat (Z.quot x y).

Definition min4 (a b c d : Z) : Z := Z.min (Z.min a b) (Z.min c d).
Definition max4 (a b c d : Z) : Z := Z.max (Z.max a b) (Z.max c d).

(** Modelled from the spec: [meet(a, b)] is the bound containing both,
    min of mins and max of maxes (section 4.1). *)
Definition meet (a b : ConstIntBound) : ConstIntBound :=
  mkConstIntBound (Z.min (min_value a) (min_value b))
                  (Z.max (max_value a) (max_value b)).

(** Modelled from the spec: [add], [sub], [mul], [div] and [mod] on two
    bounds give a bound for the operator, saturating on overflow; a
    divisor that may be zero gives the entire range (section 4.1). *)
Definition bound_add (a b : ConstIntBound) : ConstIntBound :=
  mkConstIntBound (inf_add (min_value a) (min_value b))
                  (inf_add (max_value a) (max_value b)).

Definition bound_sub (a b : ConstIntBound) : ConstIntBound :=
  mkConstIntBound (inf_add (min_value a) (- max_value b))
                  (inf_add (max_value a) (- min_value b)).

Definition bound_binary (f : Z -> Z -> Z) (a b : ConstIntBound) : ConstIntBound :=
  let p1 := f (min_value a) (min_value b) in
  let p2 := f (min_value a) (max_value b) in
  let p3 := f (max_value a) (min_value b) in
  let p4 := f (max_value a) (max_value b) in
  mkConstIntBound (min4 p1 p2 p3 p4) (max4 p1 p2 p3 p4).

Definition bound_mul : ConstIntBound -> ConstIntBound -> ConstIntBound :=
  bound_binary inf_mul.

Definition may_be_zero (b : ConstIntBound) : bool :=
  (min_value b <=? 0) && (0 <=? max_value b).

Definition bound_div (a b : ConstIntBound) : ConstIntBound :=
  if may_be_zero b then everything else bound_binary inf_div a b.

Definition bound_mod (a b : ConstIntBound) : ConstIntBound :=
  if may_be_zero b then everything
  else
    let m :=
      if is_inf (min_value b) || is_inf (max_value b) then POS_INF
      else sat (Z.max (Z.abs (min_value b)) (Z.abs (max_value b)) - 1) in
    if 0 <=? min_value a then mkConstIntBound 0 m else mkConstIntBound (- m) m.

(** The range of a comparison. *)
Definition bound_bool : ConstIntBound := mkConstIntBound 0 1.

(** *** Modular lattice *)

(** Modelled from the spec: [coeff >= 0], and the base of a set with a
    positive coefficient is kept below it; coefficient 0 is a constant
    (section 3). *)
Definition make_modular (c b : Z) : ModularSet :=
  let c' := Z.abs c in
  mkModularSet c' (if c' =? 0 then b else b mod c').

(** Modelled from the spec: no information, [{1, 0}] (section 4.2). *)
Definition trivial_set : ModularSet := mkModularSet 1 0.

(** *** Facts implied by a constraint *)

(** Modelled from the spec: a constraint pushes the bound refinement it
    implies (section 4.4); a comparison of a variable with a literal
    bounds the variable on one side. *)
Definition derive_bound (c : Expr) : option (var * ConstIntBound) :=
  match c with
  | LT (Var x) (IntImm k) => Some (x, mkConstIntBound NEG_INF (sat (k - 1)))
  | LE (Var x) (IntImm k) => Some (x, mkConstIntBound NEG_INF (sat k))
  | GT (Var x) (IntImm k) => Some (x, mkConstIntBound (sat (k + 1)) POS_INF)
  | GE (Var x) (IntImm k) => Some (x, mkConstIntBound (sat k) POS_INF)
  | EQ (Var x) (IntImm k) => Some (x, mkConstIntBound k k)
  | _ => None
  end.

(** Modelled from the spec: [x % 3 == 0] refines the modular fact of [x]
    to coefficient 3 (section 4.4). *)
Definition derive_modular (c : Expr) : option (var * ModularSet) :=
  match c with
  | EQ (Mod (Var x) (IntImm m)) (IntImm b) =>
      if 0 <? m then Some (x, make_modular m b) else None
  | _ => None
  end.

(** Modelled from the spec: the facts of an inner scope shadow those of
    the outer ones (section 4.4): the newest entry of the log that says
    something about [x] is the one seen. *)
Fixpoint newest {A} (derive : Expr -> option (var * A)) (x : var)
         (log : list Expr) : option A :=
  match log with
  | [] => None
  | c :: later =>
      match newest derive x later with
      | Some a => Some a
      | None =>
          match derive c with
          | Some (y, a) => if decide (x = y) then Some a else None
          | None => None
          end
      end
  end.

Definition var_bound (s : State) (x : var) : ConstIntBound :=
  match newest derive_bound x (constraint_log s) with
  | Some b => b
  | None =>
      match bound_map s !! x with
      | Some b => b
      | None => everything
      end
  end.

Definition var_modular (s : State) (x : var) : ModularSet :=
  match newest derive_modular x (constraint_log s) with
  | Some m => m
  | None =>
      match modular_map s !! x with
      | Some m => m
      | None => trivial_set
      end
  end.

(** *** Queries *)

(** Modelled from the spec: the native [const_int_bound]; it combines
    the facts of the operands, and a node kind it does not know has the
    full range (sections 2 and 9). *)
Fixpoint const_int_bound (s : State) (e : Expr) : ConstIntBound :=
  match e with
  | IntImm v => mkConstIntBound v v
  | Var x => var_bound s x
  | Add a b => bound_add (const_int_bound s a) (const_int_bound s b)
  | Sub a b => bound_sub (const_int_bound s a) (const_int_bound s b)
  | Mul a b => bound_mul (const_int_bound s a) (const_int_bound s b)
  | Div a b => bound_div (const_int_bound s a) (const_int_bound s b)
  | Mod a b => bound_mod (const_int_bound s a) (const_int_bound s b)
  | EQ _ _ | NE _ _ | LT _ _ | LE _ _ | GT _ _ | GE _ _ => bound_bool
  | Opaque _ => everything
  end.

(** Modelled from the spec: the native [modular_set]; sums and
    differences have the gcd of the coefficients, a product with a
    constant scales coefficient and base, a constant has coefficient 0
    (section 4.2). *)
Fixpoint modular_set (s : State) (e : Expr) : ModularSet :=
  match e with
  | IntImm v => make_modular 0 v
  | Var x => var_modular s x
  | Add a b =>
      let ma := modular_set s a in
      let mb := modular_set s b in
      make_modular (Z.gcd (coeff ma) (coeff mb)) (base ma + base mb)
  | Sub a b =>
      let ma := modular_set s a in
      let mb := modular_set s b in
      make_modular (Z.gcd (coeff ma) (coeff mb)) (base ma - base mb)
  | Mul a b =>
      let ma := modular_set s a in
      let mb := modular_set s b in
      make_modular
        (Z.gcd (coeff ma * coeff mb)
               (Z.gcd (coeff ma * base mb) (coeff mb * base ma)))
        (base ma * base mb)
  | _ => trivial_set
  end.

(** *** Mutators *)

(** Two bound facts are compatible when some value satisfies both; the
    merged fact is what both allow. *)
Definition compatible (a b : ConstIntBound) : bool :=
  Z.max (min_value a) (min_value b) <=? Z.min (max_value a) (max_value b).

Definition merge (a b : ConstIntBound) : ConstIntBound :=
  mkConstIntBound (Z.max (min_value a) (min_value b))
                  (Z.min (max_value a) (max_value b)).

Definition set_bound (v : var) (b : ConstIntBound) (s : State) : State :=
  mkState (<[v := b]> (bound_map s)) (modular_map s) (constraint_log s).

(** Modelled from the spec: the native [const_int_bound_update], the
    only mutator of the bound store.  With [override] the fact is
    replaced; without it a fact that conflicts with the stored one makes
    the update fail, and a compatible one is merged (sections 2, 3, 4.1). *)
Definition const_int_bound_update (v : var) (b : ConstIntBound) (override : bool)
  : PackedFunc State unit :=
  fun s =>
    match bound_map s !! v with
    | None => (Return tt, set_bound v b s)
    | Some old =>
        if override then (Return tt, set_bound v b s)
        else if compatible old b then (Return tt, set_bound v (merge old b) s)
        else (Raise (TVMError "conflicting bound for variable"), s)
    end.

(** Modelled from the spec: the native [bind]; from now on the queries
    for the variable answer what they answer for the expression
    (section 4.4). *)
Definition bind (v : var) (e : Expr) : PackedFunc State unit :=
  fun s =>
    (Return tt,
     mkState (<[v := const_int_bound s e]> (bound_map s))
             (<[v := modular_set s e]> (modular_map s))
             (constraint_log s)).

Definition truncate (n : nat) (s : State) : State :=
  mkState (bound_map s) (modular_map s) (firstn n (constraint_log s)).

(** Modelled from the spec: the native [enter_constraint_context];
    it appends the constraint and returns the release action, which
    truncates the log back to the recorded length and does not fail
    (sections 4.4, 7 and 9). *)
Definition enter_constraint_context (c : Expr)
  : PackedFunc State (PackedFunc State unit) :=
  fun s =>
    let recorded := length (constraint_log s) in
    let release : PackedFunc State unit :=
      fun s' => (Return tt, truncate recorded s') in
    (Return release,
     mkState (bound_map s) (modular_map s) (constraint_log s ++ [c])).

(** The closures [_CreateAnalyzer()] returns by name.  The specification
    leaves the rule table of the rewrite pass and the normal form of the
    canonical pass open, so the module takes both passes as given. *)
Definition native_module (rewrite_pass canonical_pass : State -> Expr -> Expr)
  : NativeModule State :=
  {| mod_const_int_bound := fun e s => (Return (const_int_bound s e), s);
     mod_const_int_bound_update := const_int_bound_update;
     mod_bind := bind;
     mod_modular_set := fun e s => (Return (modular_set s e), s);
     mod_rewrite_simplify := fun e s => (Return (rewrite_pass s e), s);
     mod_canonical_simplify := fun e s => (Return (canonical_pass s e), s);
     mod_enter_constraint_context := enter_constraint_context |}.

(** Every stored bound fact satisfies the invariant of its type. *)
Definition well_formed (s : State) : Prop :=
  forall x b, bound_map s !! x = Some b -> valid b.

End Engine.

(** [tvm.arith.Analyzer()] with the engine behind it. *)
Definition engine_analyzer (rewrite_pass canonical_pass : Engine.State -> Expr -> Expr)
  : @Analyzer Engine.State :=
  @Analyzer__init__ _ (Engine.native_module rewrite_pass canonical_pass).

(** A block that only asks: whatever it returns or raises, it leaves the
    analyzer state as it found it. *)
Definition read_only {N A} (block : M N A) : Prop :=
  forall w, native (snd (block w)) = native w.

(** The constraint [x % 3 == 0]. *)
Definition multiple_of_3 (x : var) : Expr := EQ (Mod (Var x) (IntImm 3)) (IntImm 0).

(** A pass that rewrites nothing, a fresh analyzer over it, and a variable:
    the inputs on which the statements below are run. *)
Definition keep (s : Engine.State) (e : Expr) : Expr := e.

Definition plain_analyzer : @Analyzer Engine.State := engine_analyzer keep keep.

Definition start : World Engine.State := mkWorld Engine.fresh [].

Definition x1 : var := 1%positive.

(** The world after [update(x1, ConstIntBound(0, 10))] on a fresh analyzer. *)
Definition bounded : World Engine.State :=
  snd (update plain_analyzer x1 (NodeConstIntBound (mkConstIntBound 0 10)) false start).


(** ** A handle kept in a variable

    After [h = analyzer.constraint_scope(c)] the handle is one object that
    every [with h:] of the program, and the blocks under them, share. *)

(** A statement that can reach the handle: it gets the object as it is and
    leaves it as it has become. *)
Definition Shared (N A : Type) : Type :=
  ConstraintScope N -> World N -> Outcome A * ConstraintScope N * World N.

(** A block that does not touch the handle. *)
Definition aloof {N A} (block : M N A) : Shared N A :=
  fun h w => let (o, w1) := block w in (o, h, w1).

(** [with h: block] on the shared handle: as [with_stmt], but the block
    runs on the object that [__enter__] left, and [__exit__] is called on
    the object as the block left it. *)
Definition with_shared {N A} (block : Shared N A) : Shared N (option A) :=
  fun h w =>
    match __enter__ h w with
    | (Raise e, h1, w1) => (Raise e, h1, w1)
    | (Return _, h1, w1) =>
        match block h1 w1 with
        | (Return a, h2, w2) =>
            match __exit__ h2 None w2 with
            | (Return _, h3, w3) => (Return (Some a), h3, w3)
            | (Raise e', h3, w3) => (Raise e', h3, w3)
            end
        | (Raise e, h2, w2) =>
            match __exit__ h2 (Some e) w2 with
            | (Return v, h3, w3) =>
                if truthy v then (Return None, h3, w3) else (Raise e, h3, w3)
            | (Raise e', h3, w3) => (Raise e', h3, w3)
            end
        end
    end.

(** One statement after another; an exception ends the sequence. *)
Definition then_shared {N A B} (first : Shared N A) (second : Shared N B)
  : Shared N B :=
  fun h w =>
    match first h w with
    | (Return _, h1, w1) => second h1 w1
    | (Raise e, h1, w1) => (Raise e, h1, w1)
    end.

(** The outcome and the world of a run, without the handle. *)
Definition forget {N A} (r : Outcome A * ConstraintScope N * World N)
  : Outcome A * World N :=
  (fst (fst r), snd r).

(** An analyzer over the engine whose [enter_constraint_context] refuses
    every constraint. *)
Definition refusing_analyzer : @Analyzer Engine.State :=
  {| _const_int_bound := _const_int_bound plain_analyzer;
     _const_int_bound_update := _const_int_bound_update plain_analyzer;
     _bind := _bind plain_analyzer;
     _modular_set := _modular_set plain_analyzer;
     _rewrite_simplify := _rewrite_simplify plain_analyzer;
     _canonical_simplify := _canonical_simplify plain_analyzer;
     _enter_constraint_context :=
       fun c s => (Raise (TVMError "constraint refused"), s) |}.

(** * Properties of the binding layer *)

Lemma POS_INF_value : POS_INF = 9223372036854775807.
Proof. reflexivity. Qed.

(** C9: the sentinels of [ConstIntBound] are [POS_INF = 2^63 - 1] and
    [NEG_INF = -POS_INF], that is [-(2^63 - 1)] and not [-2^63]. *)
Theorem sentinels_exact :
  POS_INF = 2 ^ 63 - 1 /\
  NEG_INF = - POS_INF /\
  NEG_INF = - (2 ^ 63 - 1) /\
  NEG_INF <> - 2 ^ 63 /\
  Engine.everything = mkConstIntBound (- (2 ^ 63 - 1)) (2 ^ 63 - 1).
Proof.
  repeat split; try reflexivity.
  unfold NEG_INF. rewrite POS_INF_value. discriminate.
Qed.

Lemma fexit_count_app (l1 l2 : list Call) :
  fexit_count (l1 ++ l2) = (fexit_count l1 + fexit_count l2)%nat.
Proof.
  unfold fexit_count. rewrite List.filter_app. apply List.length_app.
Qed.

Section BindingFacts.
Context {N : Type} `{NativeModule N}.

Lemma invoke_unit (c : Call) (f : PackedFunc N unit) (w : World N) :
  (_ <- invoke c f ;; ret tt) w = invoke c f w.
Proof.
  unfold bind_M, invoke, ret.
  destruct (f (native w)) as [[[]|e] n1]; reflexivity.
Qed.

(** C1: [update] hands a [ConstIntBound] to the native
    [const_int_bound_update], with the variable and the override flag it
    was given and as the only native call; for any other [info] it
    raises [TypeError]. *)
Theorem update_dispatch (self : Analyzer) (v : var) (info : Node)
        (override : bool) (w : World N) :
  match info with
  | NodeConstIntBound b =>
      update self v info override w =
      invoke (CallConstIntBoundUpdate v b override)
             (_const_int_bound_update self v b override) w
      /\ _const_int_bound_update Analyzer__init__ = mod_const_int_bound_update
  | _ =>
      update self v info override w =
      (Raise (TypeError (String.append "Do not know how to handle type "
                                       (type_repr info))), w)
  end.
Proof.
  destruct info; try reflexivity.
  split; [|reflexivity].
  unfold update. simpl. apply invoke_unit.
Qed.

(** C10: when [info] is not a [ConstIntBound] (a [ModularSet], say), the
    [TypeError] is raised with no native call made: the world after the
    failed call is the world before it, and every query made afterwards
    answers as it would have before. *)
Theorem update_failure_atomic (self : Analyzer) (v : var) (info : Node)
        (override : bool) (w : World N) :
  isinstance_ConstIntBound info = None ->
  (exists msg, update self v info override w = (Raise (TypeError msg), w)) /\
  calls (snd (update self v info override w)) = calls w /\
  native (snd (update self v info override w)) = native w /\
  (forall (A : Type) (query : M N A),
      query (snd (update self v info override w)) = query w).
Proof.
  intros Hkind. unfold update. rewrite Hkind. unfold raise. simpl.
  repeat split; eauto.
Qed.

Lemma enter_constraint_scope (self : Analyzer) (c : Expr) (w : World N)
      (r : PackedFunc N unit) (n1 : N) :
  _enter_constraint_context self c (native w) = (Return r, n1) ->
  __enter__ (constraint_scope self c) w =
  (Return PyNone,
   mkConstraintScope (_fenter (constraint_scope self c)) (Some r),
   mkWorld n1 (calls w ++ [CallEnterConstraintContext c])).
Proof.
  intros Henter. unfold __enter__, constraint_scope, ConstraintScope__init__.
  simpl. unfold invoke. rewrite Henter. reflexivity.
Qed.

(** C2: in [with analyzer.constraint_scope(c): block], once entering
    has returned the release action [r], the block runs and then [r] is
    called exactly once, on the state the block left, whether the block
    returned or raised; an exception of the block is never swallowed. *)
Theorem constraint_scope_release_once (self : Analyzer) (c : Expr)
        (A : Type) (block : M N A) (w0 : World N)
        (r : PackedFunc N unit) (n1 : N) :
  _enter_constraint_context self c (native w0) = (Return r, n1) ->
  let w1 := mkWorld n1 (calls w0 ++ [CallEnterConstraintContext c]) in
  let ob := fst (block w1) in
  let w2 := snd (block w1) in
  let orel := fst (r (native w2)) in
  let w3 := mkWorld (snd (r (native w2))) (calls w2 ++ [CallFExit]) in
  with_stmt (constraint_scope self c) block w0 =
    (match orel, ob with
     | Raise e', _ => Raise e'
     | Return _, Return a => Return (Some a)
     | Return _, Raise e => Raise e
     end, w3)
  /\ fexit_count (calls w3) = S (fexit_count (calls w2))
  /\ (raised ob -> raised (fst (with_stmt (constraint_scope self c) block w0))).
Proof.
  intros Henter w1 ob w2 orel w3.
  assert (Hrun : with_stmt (constraint_scope self c) block w0 =
    (match orel, ob with
     | Raise e', _ => Raise e'
     | Return _, Return a => Return (Some a)
     | Return _, Raise e => Raise e
     end, w3)).
  { unfold with_stmt. rewrite (enter_constraint_scope _ _ _ _ _ Henter).
    fold w1. subst ob w2 orel w3.
    destruct (block w1) as [[a|e] w2]; simpl;
      unfold __exit__, invoke; simpl;
      destruct (r (native w2)) as [[[]|e'] n3]; reflexivity. }
  split; [exact Hrun|]. split.
  - subst w3. simpl. rewrite fexit_count_app.
    change (fexit_count [CallFExit]) with 1%nat. lia.
  - rewrite Hrun. simpl. destruct ob; simpl; [tauto|].
    intros _. destruct orel; exact I.
Qed.

End BindingFacts.

(** ** How a scope runs *)

Section ScopeRuns.
Context {N : Type}.

Lemma exit_entered (h : ConstraintScope N) (r : PackedFunc N unit)
      (exc : option Exn) (w : World N) :
  _fexit h = Some r ->
  __exit__ h exc w =
  (match fst (r (native w)) with
   | Return _ => Return PyNone
   | Raise e => Raise e
   end, h, mkWorld (snd (r (native w))) (calls w ++ [CallFExit])).
Proof.
  intros Hr. unfold __exit__, invoke. rewrite Hr.
  destruct (r (native w)) as [[[]|e] n1]; reflexivity.
Qed.

Lemma enter_scope (self : @Analyzer N) (c : Expr) (stale : option (PackedFunc N unit))
      (w : World N) :
  __enter__ (mkConstraintScope (_fenter (constraint_scope self c)) stale) w =
  match _enter_constraint_context self c (native w) with
  | (Return r, n1) =>
      (Return PyNone,
       mkConstraintScope (_fenter (constraint_scope self c)) (Some r),
       mkWorld n1 (calls w ++ [CallEnterConstraintContext c]))
  | (Raise e, n1) =>
      (Raise e, mkConstraintScope (_fenter (constraint_scope self c)) stale,
       mkWorld n1 (calls w ++ [CallEnterConstraintContext c]))
  end.
Proof.
  unfold __enter__, constraint_scope, ConstraintScope__init__. simpl.
  unfold invoke.
  destruct (_enter_constraint_context self c (native w)) as [[r|e] n1];
    reflexivity.
Qed.

Lemma with_entered (self : @Analyzer N) (c : Expr) (A : Type) (block : M N A)
      (w0 : World N) (r : PackedFunc N unit) (n1 : N) :
  _enter_constraint_context self c (native w0) = (Return r, n1) ->
  with_stmt (constraint_scope self c) block w0 =
  (match fst (r (native (snd (block (mkWorld n1 (calls w0 ++ [CallEnterConstraintContext c])))))),
         fst (block (mkWorld n1 (calls w0 ++ [CallEnterConstraintContext c]))) with
   | Raise e', _ => Raise e'
   | Return _, Return a => Return (Some a)
   | Return _, Raise e => Raise e
   end,
   mkWorld (snd (r (native (snd (block (mkWorld n1 (calls w0 ++ [CallEnterConstraintContext c])))))))
           (calls (snd (block (mkWorld n1 (calls w0 ++ [CallEnterConstraintContext c]))))
              ++ [CallFExit])).
Proof.
  intros Henter. unfold with_stmt.
  change (constraint_scope self c)
    with (mkConstraintScope (_fenter (constraint_scope self c)) None).
  rewrite enter_scope, Henter.
  destruct (block _) as [[a|e] w2]; simpl;
    rewrite (exit_entered _ r) by reflexivity;
    destruct (r (native w2)) as [[[]|e'] n3]; reflexivity.
Qed.

End ScopeRuns.

(** * Properties of the engine *)

Module EngineFacts.
Import Engine.

Lemma POS_INF_pos : 0 < POS_INF.
Proof. rewrite POS_INF_value. lia. Qed.

Ltac sentinels := pose proof POS_INF_pos; unfold NEG_INF in *.

Ltac split_tests :=
  repeat match goal with
         | |- context [?a <=? ?b] => destruct (Z.leb_spec a b)
         | |- context [?a <? ?b] => destruct (Z.ltb_spec a b)
         | |- context [?a =? ?b] => destruct (Z.eqb_spec a b)
         end.

Lemma sat_range (z : Z) : NEG_INF <= sat z <= POS_INF.
Proof. unfold sat. sentinels. lia. Qed.

Lemma sat_mono (x y : Z) : x <= y -> sat x <= sat y.
Proof. unfold sat. lia. Qed.

Lemma sat_nonneg (z : Z) : 0 <= z -> 0 <= sat z.
Proof. unfold sat. sentinels. lia. Qed.

Lemma inf_add_mono (x1 x2 y1 y2 : Z) :
  x1 <= x2 -> y1 <= y2 -> inf_add x1 y1 <= inf_add x2 y2.
Proof.
  intros Hx Hy. pose proof (sat_range (x1 + y1)). pose proof (sat_range (x2 + y2)).
  pose proof (sat_mono (x1 + y1) (x2 + y2)).
  unfold inf_add, is_pos_inf, is_neg_inf. sentinels.
  split_tests; simpl; lia.
Qed.

Lemma min4_le_max4 (a b c d : Z) : min4 a b c d <= max4 a b c d.
Proof. unfold min4, max4. lia. Qed.

Lemma everything_valid : valid everything.
Proof. unfold valid, everything. simpl. sentinels. lia. Qed.

Lemma meet_valid (a b : ConstIntBound) : valid a -> valid b -> valid (meet a b).
Proof. unfold valid, meet. simpl. lia. Qed.

Lemma bound_add_valid (a b : ConstIntBound) :
  valid a -> valid b -> valid (bound_add a b).
Proof. unfold valid, bound_add. simpl. intros. by apply inf_add_mono. Qed.

Lemma bound_sub_valid (a b : ConstIntBound) :
  valid a -> valid b -> valid (bound_sub a b).
Proof. unfold valid, bound_sub. simpl. intros. apply inf_add_mono; lia. Qed.

Lemma bound_binary_valid (f : Z -> Z -> Z) (a b : ConstIntBound) :
  valid (bound_binary f a b).
Proof. unfold valid, bound_binary. simpl. apply min4_le_max4. Qed.

Lemma bound_div_valid (a b : ConstIntBound) : valid (bound_div a b).
Proof.
  unfold bound_div. destruct (may_be_zero b).
  - apply everything_valid.
  - apply bound_binary_valid.
Qed.

Lemma bound_mod_valid (a b : ConstIntBound) : valid (bound_mod a b).
Proof.
  unfold bound_mod. destruct (may_be_zero b) eqn:Hz; [apply everything_valid|].
  set (m := if is_inf (min_value b) || is_inf (max_value b) then POS_INF
            else sat (Z.max (Z.abs (min_value b)) (Z.abs (max_value b)) - 1)).
  assert (Hm : 0 <= m).
  { subst m. destruct (is_inf (min_value b) || is_inf (max_value b)).
    - pose proof POS_INF_pos. lia.
    - apply sat_nonneg. unfold may_be_zero in Hz.
      apply andb_false_iff in Hz. rewrite !Z.leb_gt in Hz. lia. }
  destruct (0 <=? min_value a); unfold valid; simpl; lia.
Qed.

Lemma derive_bound_valid (c : Expr) (x : var) (b : ConstIntBound) :
  derive_bound c = Some (x, b) -> valid b.
Proof.
  destruct c as [| | | | | |
                 |[]?|?|[]?|[]?|[]?|[]? |]; simpl; try discriminate;
    match goal with
    | |- context [match ?e with _ => _ end] => destruct e; try discriminate
    end;
    intros [= <- <-]; unfold valid; simpl;
    match goal with
    | |- context [sat ?z] => pose proof (sat_range z); lia
    | _ => lia
    end.
Qed.

Lemma newest_valid (x : var) (log : list Expr) (b : ConstIntBound) :
  newest derive_bound x log = Some b -> valid b.
Proof.
  revert b. induction log as [|c later IH]; simpl; intros b; [discriminate|].
  destruct (newest derive_bound x later) as [b'|].
  - intros [= <-]. by apply IH.
  - destruct (derive_bound c) as [[y b']|] eqn:Hc; [|discriminate].
    destruct (decide (x = y)); [|discriminate].
    intros [= <-]. eapply derive_bound_valid, Hc.
Qed.

Lemma var_bound_valid (s : State) (x : var) :
  well_formed s -> valid (var_bound s x).
Proof.
  intros Hwf. unfold var_bound.
  destruct (newest derive_bound x (constraint_log s)) as [b|] eqn:Hn.
  - eapply newest_valid, Hn.
  - destruct (bound_map s !! x) as [b|] eqn:Hb.
    + eapply Hwf, Hb.
    + apply everything_valid.
Qed.

(** The bound of every expression satisfies the invariant of its type. *)
Lemma const_int_bound_valid (s : State) (e : Expr) :
  well_formed s -> valid (const_int_bound s e).
Proof.
  intros Hwf. induction e; simpl;
    try (unfold valid, bound_bool; simpl; lia).
  - by apply var_bound_valid.
  - by apply bound_add_valid.
  - by apply bound_sub_valid.
  - apply bound_binary_valid.
  - apply bound_div_valid.
  - apply bound_mod_valid.
  - apply everything_valid.
Qed.


Lemma set_bound_well_formed (v : var) (b : ConstIntBound) (s : State) :
  valid b -> well_formed s -> well_formed (set_bound v b s).
Proof.
  intros Hb Hwf x b'. unfold set_bound. simpl.
  destruct (decide (v = x)) as [->|Hne].
  - rewrite lookup_insert_eq. by intros [= <-].
  - rewrite lookup_insert_ne by done. apply Hwf.
Qed.

Lemma merge_valid (a b : ConstIntBound) :
  compatible a b = true -> valid (merge a b).
Proof. unfold compatible, merge, valid. simpl. by rewrite Z.leb_le. Qed.

Lemma update_well_formed (v : var) (b : ConstIntBound) (override : bool)
      (s : State) :
  valid b -> well_formed s ->
  well_formed (snd (const_int_bound_update v b override s)).
Proof.
  intros Hb Hwf. unfold const_int_bound_update.
  destruct (bound_map s !! v) as [old|]; [|by apply set_bound_well_formed].
  destruct override; [by apply set_bound_well_formed|].
  destruct (compatible old b) eqn:Hc; [|exact Hwf].
  apply set_bound_well_formed; [by apply merge_valid|exact Hwf].
Qed.

Lemma bind_well_formed (v : var) (e : Expr) (s : State) :
  well_formed s -> well_formed (snd (bind v e s)).
Proof.
  intros Hwf x b. unfold bind. simpl.
  destruct (decide (v = x)) as [->|Hne].
  - rewrite lookup_insert_eq. intros [= <-]. by apply const_int_bound_valid.
  - rewrite lookup_insert_ne by done. apply Hwf.
Qed.

Lemma enter_well_formed (c : Expr) (s : State) :
  well_formed s -> well_formed (snd (enter_constraint_context c s)).
Proof. intros Hwf x b. simpl. apply Hwf. Qed.

Lemma truncate_well_formed (n : nat) (s : State) :
  well_formed s -> well_formed (truncate n s).
Proof. intros Hwf x b. simpl. apply Hwf. Qed.

Lemma newest_snoc {A} (derive : Expr -> option (var * A)) (x : var)
      (log : list Expr) (c : Expr) :
  newest derive x (log ++ [c]) =
  match derive c with
  | Some (y, a) => if decide (x = y) then Some a else newest derive x log
  | None => newest derive x log
  end.
Proof.
  induction log as [|c' later IH]; simpl.
  - destruct (derive c) as [[y a]|]; [destruct (decide (x = y))|]; reflexivity.
  - rewrite IH. destruct (derive c) as [[y a]|]; [|reflexivity].
    destruct (decide (x = y)); reflexivity.
Qed.

Lemma truncate_push (c : Expr) (s : State) :
  truncate (length (constraint_log s))
           (mkState (bound_map s) (modular_map s) (constraint_log s ++ [c])) = s.
Proof.
  destruct s as [bm mm log]. unfold truncate. simpl.
  by rewrite firstn_app, Nat.sub_diag, firstn_all, app_nil_r.
Qed.

End EngineFacts.

(** * The analyzer over the engine *)

Section EngineClaims.
Import EngineFacts.
Variables rewrite_pass canonical_pass : Engine.State -> Expr -> Expr.

Let analyzer : @Analyzer Engine.State := engine_analyzer rewrite_pass canonical_pass.


Lemma modular_set_run (e : Expr) (w : World Engine.State) :
  modular_set analyzer e w =
  (Return (Engine.modular_set (native w) e),
   mkWorld (native w) (calls w ++ [CallModularSet e])).
Proof. reflexivity. Qed.


Lemma with_scope_run {A} (c : Expr) (block : M Engine.State A) (w : World Engine.State) :
  let w1 := mkWorld (Engine.mkState (Engine.bound_map (native w)) (Engine.modular_map (native w))
                             (Engine.constraint_log (native w) ++ [c]))
                    (calls w ++ [CallEnterConstraintContext c]) in
  with_stmt (constraint_scope analyzer c) block w =
  (match fst (block w1) with
   | Return a => Return (Some a)
   | Raise e => Raise e
   end,
   mkWorld (Engine.truncate (length (Engine.constraint_log (native w))) (native (snd (block w1))))
           (calls (snd (block w1)) ++ [CallFExit])).
Proof.
  intros w1.
  rewrite (with_entered analyzer c A block w _ _ eq_refl).
  simpl. fold w1. by destruct (fst (block w1)).
Qed.

(** A scope around a block that only asks is itself a block that only
    asks, so such scopes nest. *)
Lemma with_scope_read_only {A} (c : Expr) (block : M Engine.State A) :
  read_only block -> read_only (with_stmt (constraint_scope analyzer c) block).
Proof.
  intros Hro w. rewrite with_scope_run. simpl. rewrite Hro. simpl.
  apply truncate_push.
Qed.

(** C3: a constraint scope around a block that only asks leaves the
    analyzer state as it was before the scope was entered, on normal
    exit and when the block raises; so [modular_set(x)] answers after
    the scope what it answered before it. *)
Theorem scope_isolation (c : Expr) (x : Expr) (A : Type)
        (block : M Engine.State A) (w : World Engine.State) :
  read_only block ->
  let w' := snd (with_stmt (constraint_scope analyzer c) block w) in
  native w' = native w /\
  fst (modular_set analyzer x w') = fst (modular_set analyzer x w).
Proof.
  intros Hro w'.
  assert (Hn : native w' = native w).
  { subst w'. by apply with_scope_read_only. }
  split; [exact Hn|]. rewrite !modular_set_run. simpl. by rewrite Hn.
Qed.

(** C4: when nothing is known about [x] beforehand, [modular_set(x)]
    asked inside [constraint_scope(x % 3 == 0)] has [coeff == 3], and
    asked right after the scope it has coefficient 1, not 3. *)
Theorem modular_set_in_and_after_scope (x : var) (w : World Engine.State) :
  Engine.modular_set (native w) (Var x) = Engine.trivial_set ->
  let run := with_stmt (constraint_scope analyzer (multiple_of_3 x))
                       (modular_set analyzer (Var x)) w in
  (exists m, fst run = Return (Some m) /\ coeff m = 3) /\
  (exists m', fst (modular_set analyzer (Var x) (snd run)) = Return m' /\
              coeff m' = 1 /\ coeff m' <> 3).
Proof.
  intros Hprior run. split.
  - subst run. rewrite with_scope_run. simpl.
    eexists. split; [reflexivity|].
    unfold Engine.var_modular. simpl. rewrite newest_snoc. simpl.
    by rewrite decide_True.
  - assert (Hn : native (snd run) = native w).
    { apply with_scope_read_only. intros w1. reflexivity. }
    rewrite modular_set_run. cbn [fst]. rewrite Hn.
    eexists. split; [reflexivity|].
    rewrite Hprior. simpl. lia.
Qed.

Lemma update_run (v : var) (b : ConstIntBound) (override : bool)
      (w : World Engine.State) :
  update analyzer v (NodeConstIntBound b) override w =
  (fst (Engine.const_int_bound_update v b override (native w)),
   mkWorld (snd (Engine.const_int_bound_update v b override (native w)))
           (calls w ++ [CallConstIntBoundUpdate v b override])).
Proof.
  unfold update. simpl. rewrite invoke_unit. unfold invoke. simpl.
  by destruct (Engine.const_int_bound_update v b override (native w)).
Qed.

(** C8: after [update(x, ConstIntBound(0, 5))] has succeeded,
    [update(x, ConstIntBound(10, 20), override=False)] raises and the
    stored fact stays; in general an update without override that
    conflicts with the stored bound of the variable raises and changes
    nothing. *)
Theorem conflicting_update_fails (x : var) (w : World Engine.State) :
  (forall (override : bool) (w1 : World Engine.State),
      update analyzer x (NodeConstIntBound (mkConstIntBound 0 5)) override w
        = (Return tt, w1) ->
      (exists msg,
          fst (update analyzer x (NodeConstIntBound (mkConstIntBound 10 20))
                      false w1) = Raise (TVMError msg)) /\
      native (snd (update analyzer x (NodeConstIntBound (mkConstIntBound 10 20))
                          false w1)) = native w1) /\
  (forall (old new : ConstIntBound),
      Engine.bound_map (native w) !! x = Some old ->
      Engine.compatible old new = false ->
      (exists msg,
          fst (update analyzer x (NodeConstIntBound new) false w)
            = Raise (TVMError msg)) /\
      native (snd (update analyzer x (NodeConstIntBound new) false w)) = native w).
Proof.
  assert (Hgen : forall (w0 : World Engine.State) (old new : ConstIntBound),
             Engine.bound_map (native w0) !! x = Some old ->
             Engine.compatible old new = false ->
             (exists msg,
                 fst (update analyzer x (NodeConstIntBound new) false w0)
                 = Raise (TVMError msg)) /\
             native (snd (update analyzer x (NodeConstIntBound new) false w0))
             = native w0).
  { intros w0 old new Hold Hc. rewrite update_run. simpl.
    unfold Engine.const_int_bound_update. rewrite Hold, Hc. simpl. eauto. }
  split; [|by apply Hgen].
  intros override w1. rewrite update_run. intros [= Hout <-].
  assert (Hstored : exists b1,
             Engine.bound_map
               (snd (Engine.const_int_bound_update x (mkConstIntBound 0 5)
                                                   override (native w))) !! x
             = Some b1 /\
             Engine.compatible b1 (mkConstIntBound 10 20) = false).
  { revert Hout. unfold Engine.const_int_bound_update.
    destruct (Engine.bound_map (native w) !! x) as [old|] eqn:Hold.
    - destruct override.
      + intros _. exists (mkConstIntBound 0 5). simpl.
        by rewrite lookup_insert_eq.
      + destruct (Engine.compatible old (mkConstIntBound 0 5)) eqn:Hc;
          [|discriminate].
        intros _. exists (Engine.merge old (mkConstIntBound 0 5)). simpl.
        rewrite lookup_insert_eq. split; [reflexivity|].
        unfold Engine.compatible in *. simpl in *.
        apply Z.leb_le in Hc. apply Z.leb_gt. lia.
    - intros _. exists (mkConstIntBound 0 5). simpl.
      by rewrite lookup_insert_eq. }
  destruct Hstored as (b1 & Hb1 & Hc1).
  eapply Hgen; [exact Hb1|exact Hc1].
Qed.

End EngineClaims.

(** * The statements on concrete inputs *)

Example bound_of_sum :
  fst (const_int_bound plain_analyzer (Add (Var x1) (IntImm 1)) bounded)
  = Return (mkConstIntBound 1 11).
Proof. vm_compute. reflexivity. Qed.

Example bound_of_quotient_by_unknown :
  fst (const_int_bound plain_analyzer (Div (IntImm 7) (Var x1)) bounded)
  = Return (mkConstIntBound NEG_INF POS_INF).
Proof. vm_compute. reflexivity. Qed.

Example modular_of_scaled_sum :
  fst (modular_set plain_analyzer
         (Add (Mul (Var x1) (IntImm 4)) (IntImm 6)) start)
  = Return (mkModularSet 4 2).
Proof. vm_compute. reflexivity. Qed.

Lemma update_failure_atomic_witness :
  isinstance_ConstIntBound (NodeModularSet (mkModularSet 3 0)) = None /\
  native (snd (update plain_analyzer x1 (NodeModularSet (mkModularSet 3 0))
                      false bounded)) = native bounded.
Proof.
  split; [reflexivity|].
  apply (update_failure_atomic plain_analyzer x1
           (NodeModularSet (mkModularSet 3 0)) false bounded).
  reflexivity.
Defined.

Lemma constraint_scope_release_once_witness :
  _enter_constraint_context plain_analyzer (multiple_of_3 x1) (native start)
  = (Return (fun s => (Return tt, Engine.truncate 0 s)),
     Engine.mkState ∅ ∅ [multiple_of_3 x1]) /\
  with_stmt (constraint_scope plain_analyzer (multiple_of_3 x1))
            (raise (A := unit) (PyException "ValueError" "stop")) start
  = (Raise (PyException "ValueError" "stop"),
     mkWorld Engine.fresh
             [CallEnterConstraintContext (multiple_of_3 x1); CallFExit]).
Proof.
  split; [reflexivity|].
  exact (proj1 (constraint_scope_release_once
                  plain_analyzer (multiple_of_3 x1) unit
                  (raise (PyException "ValueError" "stop")) start
                  (fun s => (Return tt, Engine.truncate 0 s))
                  (Engine.mkState ∅ ∅ [multiple_of_3 x1]) eq_refl)).
Defined.



Lemma scope_isolation_witness :
  read_only (modular_set plain_analyzer (Var x1)) /\
  fst (modular_set plain_analyzer (Var x1)
         (snd (with_stmt (constraint_scope plain_analyzer (multiple_of_3 x1))
                         (modular_set plain_analyzer (Var x1)) start)))
  = fst (modular_set plain_analyzer (Var x1) start).
Proof.
  assert (Hro : read_only (modular_set plain_analyzer (Var x1))).
  { intros w. reflexivity. }
  split; [exact Hro|].
  apply (scope_isolation keep keep (multiple_of_3 x1) (Var x1) ModularSet
                         (modular_set plain_analyzer (Var x1)) start).
  exact Hro.
Defined.

Lemma modular_set_in_and_after_scope_witness :
  Engine.modular_set (native start) (Var x1) = Engine.trivial_set /\
  (exists m,
      fst (with_stmt (constraint_scope plain_analyzer (multiple_of_3 x1))
                     (modular_set plain_analyzer (Var x1)) start)
      = Return (Some m) /\ coeff m = 3).
Proof.
  split; [reflexivity|].
  apply (modular_set_in_and_after_scope keep keep x1 start).
  reflexivity.
Defined.

Lemma conflicting_update_fails_witness :
  update plain_analyzer x1 (NodeConstIntBound (mkConstIntBound 0 5)) false start
  = (Return tt,
     snd (update plain_analyzer x1 (NodeConstIntBound (mkConstIntBound 0 5))
                 false start)) /\
  exists msg,
    fst (update plain_analyzer x1 (NodeConstIntBound (mkConstIntBound 10 20)) false
           (snd (update plain_analyzer x1
                        (NodeConstIntBound (mkConstIntBound 0 5)) false start)))
    = Raise (TVMError msg).
Proof.
  split; [reflexivity|].
  apply (proj1 (conflicting_update_fails keep keep x1 start) false).
  reflexivity.
Defined.

(** * Entering, leaving and reusing a scope handle *)

Section HandleFacts.
Context {N : Type}.

(** X1: when the native [enter_constraint_context] raises, the [with]
    statement raises the same exception; the block is not run and no
    release is called: the only native call made is the failed one. *)
Theorem enter_failure_skips_block (self : @Analyzer N) (c : Expr)
        (A : Type) (block : M N A) (w0 : World N) (e : Exn) (n1 : N) :
  _enter_constraint_context self c (native w0) = (Raise e, n1) ->
  with_stmt (constraint_scope self c) block w0 =
    (Raise e, mkWorld n1 (calls w0 ++ [CallEnterConstraintContext c])) /\
  fexit_count (calls (snd (with_stmt (constraint_scope self c) block w0)))
  = fexit_count (calls w0).
Proof.
  intros Henter.
  assert (Hrun : with_stmt (constraint_scope self c) block w0 =
                 (Raise e, mkWorld n1 (calls w0 ++ [CallEnterConstraintContext c]))).
  { unfold with_stmt.
    change (constraint_scope self c)
      with (mkConstraintScope (_fenter (constraint_scope self c)) None).
    by rewrite enter_scope, Henter. }
  split; [exact Hrun|].
  rewrite Hrun. simpl. rewrite fexit_count_app.
  change (fexit_count [CallEnterConstraintContext c]) with 0%nat. lia.
Qed.

(** X2: a handle holds no release until an entry has succeeded.
    [__exit__] on a handle that was never entered, or whose entry raised,
    raises [TypeError] ([_fexit] is still [None]) without calling
    anything on the native side, and leaves the handle and the world as
    they are. *)
Theorem exit_without_release (self : @Analyzer N) (c : Expr) (exc : option Exn)
        (w : World N) :
  __exit__ (constraint_scope self c) exc w =
  (Raise (TypeError "'NoneType' object is not callable"),
   constraint_scope self c, w) /\
  forall (e : Exn) (n1 : N) (w' : World N),
    _enter_constraint_context self c (native w) = (Raise e, n1) ->
    __exit__ (snd (fst (__enter__ (constraint_scope self c) w))) exc w' =
    (Raise (TypeError "'NoneType' object is not callable"),
     constraint_scope self c, w').
Proof.
  split; [reflexivity|].
  intros e n1 w' Henter.
  change (constraint_scope self c)
    with (mkConstraintScope (_fenter (constraint_scope self c)) None) at 1.
  rewrite enter_scope, Henter. reflexivity.
Qed.

(** X3: of two nested scopes the inner one is released first: the state
    after [with scope(c1): with scope(c2): block] is the outer release
    applied to the inner release applied to the state the block left,
    whatever the block and the releases return or raise; when both
    releases return, the outcome is the block's. *)
Theorem nested_scopes_release_in_reverse (self : @Analyzer N) (c1 c2 : Expr)
        (A : Type) (block : M N A) (w0 : World N)
        (r1 r2 : PackedFunc N unit) (n1 n2 : N) :
  _enter_constraint_context self c1 (native w0) = (Return r1, n1) ->
  _enter_constraint_context self c2 n1 = (Return r2, n2) ->
  let w2 := mkWorld n2 ((calls w0 ++ [CallEnterConstraintContext c1])
                          ++ [CallEnterConstraintContext c2])%list in
  let wb := snd (block w2) in
  let run := with_stmt (constraint_scope self c1)
                       (with_stmt (constraint_scope self c2) block) w0 in
  native (snd run) = snd (r1 (snd (r2 (native wb)))) /\
  calls (snd run) = ((calls wb ++ [CallFExit]) ++ [CallFExit])%list /\
  (fst (r2 (native wb)) = Return tt ->
   fst (r1 (snd (r2 (native wb)))) = Return tt ->
   fst run = match fst (block w2) with
             | Return a => Return (Some (Some a))
             | Raise e => Raise e
             end).
Proof.
  intros H1 H2 w2 wb run.
  assert (Hrun : run =
    (match fst (r1 (snd (r2 (native wb)))), fst (r2 (native wb)), fst (block w2) with
     | Raise e', _, _ => Raise e'
     | Return _, Raise e', _ => Raise e'
     | Return _, Return _, Return a => Return (Some (Some a))
     | Return _, Return _, Raise e => Raise e
     end,
     mkWorld (snd (r1 (snd (r2 (native wb)))))
             ((calls wb ++ [CallFExit]) ++ [CallFExit])%list)).
  { subst run. rewrite (with_entered self c1 _ _ w0 r1 n1 H1).
    rewrite (with_entered self c2 _ block
               (mkWorld n1 (calls w0 ++ [CallEnterConstraintContext c1]))
               r2 n2 H2). simpl.
    fold w2. fold wb.
    destruct (fst (r1 (snd (r2 (native wb))))) as [[]|e1];
      destruct (fst (r2 (native wb))) as [[]|e2];
      destruct (fst (block w2)) as [a|e]; reflexivity. }
  rewrite Hrun. simpl. repeat split.
  intros -> ->. reflexivity.
Qed.

Lemma with_shared_aloof {A} (block : M N A) (h : ConstraintScope N) (w : World N) :
  forget (with_shared (aloof block) h w) = with_stmt h block w /\
  _fenter (snd (fst (with_shared (aloof block) h w))) = _fenter h.
Proof.
  unfold forget, with_shared, with_stmt, aloof, __enter__.
  destruct (_fenter h w) as [[r|e] w1]; [|by split].
  destruct (block w1) as [[a|e] w2]; simpl;
    unfold __exit__; simpl;
    destruct (invoke CallFExit r w2) as [[[]|e'] w3]; by split.
Qed.

Lemma with_stmt_fenter {A} (block : M N A) (h h' : ConstraintScope N) (w : World N) :
  _fenter h = _fenter h' -> with_stmt h block w = with_stmt h' block w.
Proof.
  destruct h as [f x], h' as [f' x']. simpl. intros <-.
  unfold with_stmt, __enter__. simpl.
  destruct (f w) as [[r|e] w1]; reflexivity.
Qed.

(** X4: a handle can be used again once its scope has ended: two [with]
    statements on one kept handle, one after the other, run as two [with]
    statements on fresh handles; the release left in [_fexit] by the
    first use is never called by the second. *)
Theorem handle_reused_in_sequence (self : @Analyzer N) (c : Expr)
        (A B : Type) (b1 : M N A) (b2 : M N B) (w : World N) :
  forget (then_shared (with_shared (aloof b1)) (with_shared (aloof b2))
                      (constraint_scope self c) w)
  = (_ <- with_stmt (constraint_scope self c) b1 ;;
     with_stmt (constraint_scope self c) b2) w.
Proof.
  unfold then_shared, bind_M.
  destruct (with_shared_aloof b1 (constraint_scope self c) w) as [Hrun Hf].
  destruct (with_shared (aloof b1) (constraint_scope self c) w)
    as [[o h1] w1].
  unfold forget in Hrun. simpl in Hrun, Hf. rewrite <- Hrun.
  destruct o as [a|e]; [|reflexivity].
  destruct (with_shared_aloof b2 h1 w1) as [Hrun2 _].
  rewrite Hrun2. by apply with_stmt_fenter.
Qed.

(** X5: a handle is not re-entrant.  In [with h: with h: block] the
    inner entry overwrites [_fexit], so the release of the inner entry
    is called at both exits and the release of the outer entry is never
    called, whatever the block and the releases return or raise. *)
Theorem reentered_handle_releases_inner_twice (self : @Analyzer N) (c : Expr)
        (A : Type) (block : M N A) (w0 : World N)
        (r1 r2 : PackedFunc N unit) (n1 n2 : N) :
  _enter_constraint_context self c (native w0) = (Return r1, n1) ->
  _enter_constraint_context self c n1 = (Return r2, n2) ->
  let w2 := mkWorld n2 ((calls w0 ++ [CallEnterConstraintContext c])
                          ++ [CallEnterConstraintContext c])%list in
  let wb := snd (block w2) in
  let run := with_shared (with_shared (aloof block)) (constraint_scope self c) w0 in
  native (snd run) = snd (r2 (snd (r2 (native wb)))) /\
  calls (snd run) = ((calls wb ++ [CallFExit]) ++ [CallFExit])%list /\
  _fexit (snd (fst run)) = Some r2.
Proof.
  intros H1 H2 w2 wb run.
  assert (Hrun : exists o,
             run = (o, mkConstraintScope (_fenter (constraint_scope self c)) (Some r2),
                    mkWorld (snd (r2 (snd (r2 (native wb)))))
                            ((calls wb ++ [CallFExit]) ++ [CallFExit])%list)).
  { subst run. unfold with_shared.
    change (constraint_scope self c)
      with (mkConstraintScope (_fenter (constraint_scope self c)) None) at 1.
    rewrite enter_scope, H1. rewrite enter_scope. simpl native. rewrite H2.
    subst wb w2. unfold aloof.
    destruct (block _) as [[a|e] wb]; simpl;
      unfold __exit__, invoke; simpl;
      destruct (r2 (native wb)) as [[[]|e1] n3]; simpl;
      destruct (r2 n3) as [[[]|e2] n4]; simpl; eauto. }
  destruct Hrun as [o ->]. by repeat split.
Qed.

(** X6: [__exit__] does not clear [_fexit]: after [with h: block] the
    handle still holds the release it obtained, so a further call of
    [h.__exit__] calls that release once more. *)
Theorem handle_keeps_release (self : @Analyzer N) (c : Expr)
        (A : Type) (block : M N A) (w0 : World N)
        (r : PackedFunc N unit) (n1 : N) :
  _enter_constraint_context self c (native w0) = (Return r, n1) ->
  let h := snd (fst (with_shared (aloof block) (constraint_scope self c) w0)) in
  h = mkConstraintScope (_fenter (constraint_scope self c)) (Some r) /\
  forall (exc : option Exn) (w : World N),
    native (snd (__exit__ h exc w)) = snd (r (native w)) /\
    calls (snd (__exit__ h exc w)) = (calls w ++ [CallFExit])%list.
Proof.
  intros Henter h.
  assert (Hh : h = mkConstraintScope (_fenter (constraint_scope self c)) (Some r)).
  { subst h. unfold with_shared.
    change (constraint_scope self c)
      with (mkConstraintScope (_fenter (constraint_scope self c)) None) at 1.
    rewrite enter_scope, Henter. unfold aloof.
    destruct (block _) as [[a|e] w2]; simpl;
      rewrite (exit_entered _ r) by reflexivity;
      destruct (r (native w2)) as [[[]|e'] n3]; reflexivity. }
  split; [exact Hh|].
  intros exc w. rewrite Hh, (exit_entered _ r) by reflexivity. by split.
Qed.

End HandleFacts.

Lemma enter_failure_skips_block_witness :
  _enter_constraint_context refusing_analyzer (multiple_of_3 x1) (native start)
  = (Raise (TVMError "constraint refused"), Engine.fresh) /\
  with_stmt (constraint_scope refusing_analyzer (multiple_of_3 x1))
            (modular_set refusing_analyzer (Var x1)) start
  = (Raise (TVMError "constraint refused"),
     mkWorld Engine.fresh [CallEnterConstraintContext (multiple_of_3 x1)]).
Proof.
  split; [reflexivity|].
  exact (proj1 (enter_failure_skips_block
                  refusing_analyzer (multiple_of_3 x1) ModularSet
                  (modular_set refusing_analyzer (Var x1)) start
                  (TVMError "constraint refused") Engine.fresh eq_refl)).
Defined.

Lemma nested_scopes_release_in_reverse_witness :
  _enter_constraint_context plain_analyzer (multiple_of_3 x1) (native start)
  = (Return (fun s => (Return tt, Engine.truncate 0 s)),
     Engine.mkState ∅ ∅ [multiple_of_3 x1]) /\
  _enter_constraint_context plain_analyzer (LT (Var x1) (IntImm 10))
                            (Engine.mkState ∅ ∅ [multiple_of_3 x1])
  = (Return (fun s => (Return tt, Engine.truncate 1 s)),
     Engine.mkState ∅ ∅ [multiple_of_3 x1; LT (Var x1) (IntImm 10)]) /\
  native (snd (with_stmt (constraint_scope plain_analyzer (multiple_of_3 x1))
                 (with_stmt (constraint_scope plain_analyzer (LT (Var x1) (IntImm 10)))
                            (const_int_bound plain_analyzer (Var x1))) start))
  = Engine.fresh.
Proof.
  split; [reflexivity|]. split; [reflexivity|].
  exact (proj1 (nested_scopes_release_in_reverse
                  plain_analyzer (multiple_of_3 x1) (LT (Var x1) (IntImm 10))
                  ConstIntBound (const_int_bound plain_analyzer (Var x1)) start
                  (fun s => (Return tt, Engine.truncate 0 s))
                  (fun s => (Return tt, Engine.truncate 1 s))
                  (Engine.mkState ∅ ∅ [multiple_of_3 x1])
                  (Engine.mkState ∅ ∅ [multiple_of_3 x1; LT (Var x1) (IntImm 10)])
                  eq_refl eq_refl)).
Defined.

Lemma reentered_handle_releases_inner_twice_witness :
  _enter_constraint_context plain_analyzer (multiple_of_3 x1) (native start)
  = (Return (fun s => (Return tt, Engine.truncate 0 s)),
     Engine.mkState ∅ ∅ [multiple_of_3 x1]) /\
  _enter_constraint_context plain_analyzer (multiple_of_3 x1)
                            (Engine.mkState ∅ ∅ [multiple_of_3 x1])
  = (Return (fun s => (Return tt, Engine.truncate 1 s)),
     Engine.mkState ∅ ∅ [multiple_of_3 x1; multiple_of_3 x1]) /\
  native (snd (with_shared (with_shared (aloof (ret tt)))
                           (constraint_scope plain_analyzer (multiple_of_3 x1)) start))
  = Engine.mkState ∅ ∅ [multiple_of_3 x1].
Proof.
  split; [reflexivity|]. split; [reflexivity|].
  exact (proj1 (reentered_handle_releases_inner_twice
                  plain_analyzer (multiple_of_3 x1) unit (ret tt) start
                  (fun s => (Return tt, Engine.truncate 0 s))
                  (fun s => (Return tt, Engine.truncate 1 s))
                  (Engine.mkState ∅ ∅ [multiple_of_3 x1])
                  (Engine.mkState ∅ ∅ [multiple_of_3 x1; multiple_of_3 x1])
                  eq_refl eq_refl)).
Defined.

Lemma handle_keeps_release_witness :
  _enter_constraint_context plain_analyzer (multiple_of_3 x1) (native start)
  = (Return (fun s => (Return tt, Engine.truncate 0 s)),
     Engine.mkState ∅ ∅ [multiple_of_3 x1]) /\
  _fexit (snd (fst (with_shared (aloof (ret tt))
                      (constraint_scope plain_analyzer (multiple_of_3 x1)) start)))
  = Some (fun s => (Return tt, Engine.truncate 0 s)).
Proof.
  split; [reflexivity|].
  exact (f_equal _fexit
           (proj1 (handle_keeps_release
                     plain_analyzer (multiple_of_3 x1) unit (ret tt) start
                     (fun s => (Return tt, Engine.truncate 0 s))
                     (Engine.mkState ∅ ∅ [multiple_of_3 x1]) eq_refl))).
Defined.

Lemma exit_without_release_witness :
  _enter_constraint_context refusing_analyzer (multiple_of_3 x1) (native start)
  = (Raise (TVMError "constraint refused"), Engine.fresh) /\
  __exit__ (snd (fst (__enter__ (constraint_scope refusing_analyzer (multiple_of_3 x1))
                                start)))
           None bounded
  = (Raise (TypeError "'NoneType' object is not callable"),
     constraint_scope refusing_analyzer (multiple_of_3 x1), bounded).
Proof.
  split; [reflexivity|].
  exact (proj2 (exit_without_release refusing_analyzer (multiple_of_3 x1) None start)
               (TVMError "constraint refused") Engine.fresh bounded eq_refl).
Defined.
